(** * inspect_images.py: a shallow embedding and its properties

    The script walks a fixed list of five image names, asks the file system
    whether each one is there, opens it with Pillow, prints its mode and
    size, reads the four corner pixels and prints them.  A failure inside
    the [try] block is reported on one line and the loop goes on.

    The embedding has three layers:
    - [Python]: values, exceptions, [repr]/[str], and a state-and-exception
      monad in which statements are sequenced;
    - [Lib]: the three library entry points the script calls
      ([os.path.join], [os.path.exists], [Image.open] with [getpixel]) and
      [print], acting on an explicit machine state;
    - [InspectImages]: the script itself, statement by statement. *)

From Stdlib Require Import ZArith List String Ascii Bool Lia DecimalString.
Import ListNotations.

Open Scope string_scope.
Open Scope Z_scope.

(* ================================================================== *)
(** ** Python values, exceptions and the statement monad *)

Module Python.

(** Exceptions, split the way [except Exception] splits them: instances of
    [Exception] (every error Pillow and the OS layer report: [OSError],
    [UnidentifiedImageError], [IndexError], [ValueError], ...) and the
    remaining [BaseException]s ([KeyboardInterrupt], [SystemExit], ...).
    The string is [str(e)]. *)
Inductive exn : Type :=
| Exception (msg : string)
| BaseException (msg : string).

Definition is_Exception (e : exn) : bool :=
  match e with
  | Exception _ => true
  | BaseException _ => false
  end.

(** What evaluating an expression or running a statement yields. *)
Inductive result (A : Type) : Type :=
| Ok (a : A)
| Raise (e : exn).

Arguments Ok {A} a.
Arguments Raise {A} e.

(** A pixel as [getpixel] returns it: an [int] for single-band images, a
    tuple of [int]s for multi-band ones, a [float] for mode ["F"] (kept as
    the text [repr] gives for it). *)
Inductive pixel : Type :=
| PInt (v : Z)
| PTuple (bands : list Z)
| PFloat (text : string).

Definition repr_int (z : Z) : string :=
  NilZero.string_of_int (Z.to_int z).

(** [", ".join(items)] *)
Fixpoint join_comma (items : list string) : string :=
  match items with
  | [] => ""
  | [x] => x
  | x :: rest => x ++ ", " ++ join_comma rest
  end.

(** [repr] of a tuple of ints: a one-element tuple keeps its comma. *)
Definition repr_tuple (zs : list Z) : string :=
  match zs with
  | [z] => "(" ++ repr_int z ++ ",)"
  | _ => "(" ++ join_comma (map repr_int zs) ++ ")"
  end.

Definition repr_pixel (p : pixel) : string :=
  match p with
  | PInt v => repr_int v
  | PTuple bands => repr_tuple bands
  | PFloat text => text
  end.

(** [repr] of a list of pixels, which is what an f-string inserts for it. *)
Definition repr_list (ps : list pixel) : string :=
  "[" ++ join_comma (map repr_pixel ps) ++ "]".

(** Statements run on a machine state [S]; they return or raise, and leave
    a state behind either way. *)
Section Monad.
Context {S : Type}.

Definition M (A : Type) : Type := S -> result A * S.

Definition ret {A} (a : A) : M A := fun s => (Ok a, s).

Definition bind {A B} (m : M A) (k : A -> M B) : M B :=
  fun s =>
    match m s with
    | (Ok a, s') => k a s'
    | (Raise e, s') => (Raise e, s')
    end.

(** [try: body / except Exception as e: handler(str(e))].  An exception
    that is not an instance of [Exception] passes through. *)
Definition try_except_Exception {A} (body : M A) (handler : string -> M A)
  : M A :=
  fun s =>
    match body s with
    | (Ok a, s') => (Ok a, s')
    | (Raise (Exception msg), s') => handler msg s'
    | (Raise (BaseException msg), s') => (Raise (BaseException msg), s')
    end.

(** [for x in xs: body(x)] *)
Fixpoint for_in {X} (xs : list X) (body : X -> M unit) : M unit :=
  match xs with
  | [] => ret tt
  | x :: rest => bind (body x) (fun _ => for_in rest body)
  end.

End Monad.

Arguments M S A : clear implicits.

End Python.

Import Python.

Declare Scope py_scope.
Delimit Scope py_scope with py.
Notation "x <- c1 ;; c2" := (bind c1 (fun x => c2))
  (at level 100, c1 at next level, right associativity) : py_scope.
Notation "c1 ;; c2" := (bind c1 (fun _ => c2))
  (at level 100, right associativity) : py_scope.
Open Scope py_scope.

(* ================================================================== *)
(** ** The libraries the script calls *)

Module Lib.

(** A decoded image as the script sees it: [img.mode], [img.width],
    [img.height] ([img.size] is the pair of the two) and [img.getpixel],
    which returns a pixel or raises. *)
Record Image : Type := mkImage {
  mode : string;
  width : Z;
  height : Z;
  getpixel : Z * Z -> result pixel
}.

Definition size (im : Image) : Z * Z := (width im, height im).

(** [repr] of the [size] tuple. *)
Definition repr_size (im : Image) : string :=
  repr_tuple [fst (size im); snd (size im)].

(** What the file system holds at a path, as far as the script can tell:
    - [Absent]: nothing there, [os.stat] raises [FileNotFoundError];
    - [Unreachable]: [os.stat] raises another [OSError], as it does when a
      directory on the way may not be searched;
    - [Directory]: [os.stat] succeeds; opening it as a file raises the
      [OSError] with text [err];
    - [Regular]: a file; [opened] is what [Image.open] followed by the
      decoder make of its bytes. *)
Inductive node : Type :=
| Absent
| Unreachable
| Directory (err : string)
| Regular (opened : result Image).

Definition Disk : Type := string -> node.

(** The calls the script makes into the libraries, in the order made. *)
Inductive Call : Type :=
| call_exists (path : string)
| call_open (path : string)
| call_getpixel (xy : Z * Z)
| call_print (line : string).

(** The machine state: the disk, the lines written to standard output, the
    library calls made so far, and the module-level name [img] (Python has
    no block scope: a name bound in a loop body is a global of the module
    and stays bound until it is bound again).  The files Pillow holds open
    are read off the call log by [handles_along] below. *)
Record State : Type := mkState {
  disk : Disk;
  stdout : list string;
  calls : list Call;
  img : option Image
}.

Definition initial (d : Disk) : State :=
  {| disk := d; stdout := []; calls := []; img := None |}.

Definition log (c : Call) (s : State) : State :=
  {| disk := disk s; stdout := stdout s; calls := calls s ++ [c];
     img := img s |}.

(** [print(line)] on a standard output that takes the line; [print_to]
    below is [print] on one that may refuse it. *)
Definition print (line : string) : M State unit :=
  fun s =>
    (Ok tt,
     {| disk := disk s; stdout := stdout s ++ [line];
        calls := calls s ++ [call_print line]; img := img s |}).

(** [ntpath.join(a, b)] for a second component with neither drive nor
    leading separator, which is the case of every listed name. *)
Definition ends_with_sep (a : string) : bool :=
  match rev (list_ascii_of_string a) with
  | c :: _ => (Ascii.eqb c "\" || Ascii.eqb c "/")%bool
  | [] => false
  end.

Definition os_path_join (a b : string) : string :=
  if (String.eqb a "" || ends_with_sep a)%bool then a ++ b
  else a ++ "\" ++ b.

(** [os.stat(path)]: succeeds on what is there and can be reached. *)
Definition os_stat (d : Disk) (path : string) : result unit :=
  match d path with
  | Absent => Raise (Exception "No such file or directory")
  | Unreachable => Raise (Exception "Permission denied")
  | Directory _ => Ok tt
  | Regular _ => Ok tt
  end.

(** [os.path.exists(path)] is [genericpath.exists]:
    [try: os.stat(path) / except (OSError, ValueError): return False /
     return True].  It never raises on account of the file system. *)
Definition exists_on (d : Disk) (path : string) : bool :=
  match os_stat d path with
  | Ok _ => true
  | Raise _ => false
  end.

Definition os_path_exists (path : string) : M State bool :=
  fun s => (Ok (exists_on (disk s) path), log (call_exists path) s).

(** [Image.open(path)]: opens the path for reading and identifies the
    format.  Nothing is written. *)
Definition open_on (d : Disk) (path : string) : result Image :=
  match d path with
  | Absent => Raise (Exception "No such file or directory")
  | Unreachable => Raise (Exception "Permission denied")
  | Directory err => Raise (Exception err)
  | Regular opened => opened
  end.

Definition Image_open (path : string) : M State Image :=
  fun s => (open_on (disk s) path, log (call_open path) s).

(** [img = value] *)
Definition assign_img (im : Image) : M State unit :=
  fun s =>
    (Ok tt,
     {| disk := disk s; stdout := stdout s; calls := calls s;
        img := Some im |}).

(** [im.getpixel(xy)] *)
Definition Image_getpixel (im : Image) (xy : Z * Z) : M State pixel :=
  fun s => (getpixel im xy, log (call_getpixel xy) s).

End Lib.

Import Lib.

(* ================================================================== *)
(** ** The script *)

Module InspectImages.

Definition files : list string :=
  ["saver.webp"; "comfort.webp"; "vip.webp"; "taxi.webp"; "scooter.webp"].

Definition base_path : string :=
  "e:\sm-new\smart-v2\smartline-app\src\assets\images".

(** The four coordinates of the [corners] list, in the order written. *)
Definition corner_coords (im : Image) : list (Z * Z) :=
  [ (0, 0);
    (width im - 1, 0);
    (0, height im - 1);
    (width im - 1, height im - 1) ].

(** The body of the [try] block. *)
Definition try_body (f path : string) : M State unit :=
  im <- Image_open path ;;
  assign_img im ;;
  print (f ++ ": Mode=" ++ mode im ++ ", Size=" ++ repr_size im) ;;
  c0 <- Image_getpixel im (0, 0) ;;
  c1 <- Image_getpixel im (width im - 1, 0) ;;
  c2 <- Image_getpixel im (0, height im - 1) ;;
  c3 <- Image_getpixel im (width im - 1, height im - 1) ;;
  let corners := [c0; c1; c2; c3] in
  print ("  Corners: " ++ repr_list corners).

(** The body of the [for] loop. *)
Definition loop_body (f : string) : M State unit :=
  let path := os_path_join base_path f in
  found <- os_path_exists path ;;
  if found : bool then
    try_except_Exception
      (try_body f path)
      (fun e => print ("  Error reading " ++ f ++ ": " ++ e))
  else
    print (f ++ " not found").

(** The whole module. *)
Definition main : M State unit := for_in files loop_body.

(** Running it on a disk, from a fresh interpreter. *)
Definition run (d : Disk) : result unit * State := main (initial d).

End InspectImages.

Import InspectImages.

(* ================================================================== *)
(** ** Notions the statements below are written in *)

(** The path the loop builds for a name. *)
Definition path_of (f : string) : string := os_path_join base_path f.

(** Reading a list of coordinates directly off an image, left to right,
    stopping at the first read that raises. *)
Fixpoint read_all (im : Image) (coords : list (Z * Z)) : result (list pixel) :=
  match coords with
  | [] => Ok []
  | xy :: rest =>
      match getpixel im xy with
      | Ok p =>
          match read_all im rest with
          | Ok ps => Ok (p :: ps)
          | Raise e => Raise e
          end
      | Raise e => Raise e
      end
  end.

(** The four corners, read directly. *)
Definition sample (im : Image) : result (list pixel) :=
  read_all im (corner_coords im).

(** The two lines an iteration can print about an image, and the two
    one-line reports. *)
Definition mode_line (f : string) (im : Image) : string :=
  f ++ ": Mode=" ++ mode im ++ ", Size=" ++ repr_size im.

Definition corners_line (ps : list pixel) : string :=
  "  Corners: " ++ repr_list ps.

Definition error_line (f msg : string) : string :=
  "  Error reading " ++ f ++ ": " ++ msg.

Definition not_found_line (f : string) : string :=
  f ++ " not found".

(** What one iteration contributes when run on its own: the lines it
    prints, how it ends, the calls it makes. *)
Definition block (d : Disk) (f : string) : list string :=
  stdout (snd (loop_body f (initial d))).

Definition status (d : Disk) (f : string) : result unit :=
  fst (loop_body f (initial d)).

Definition trace (d : Disk) (f : string) : list Call :=
  calls (snd (loop_body f (initial d))).

(** The paths whose existence was asked, in the order asked. *)
Fixpoint exists_checks (cs : list Call) : list string :=
  match cs with
  | [] => []
  | call_exists p :: rest => p :: exists_checks rest
  | _ :: rest => exists_checks rest
  end.

(** How many names of a list the loop starts on: it stops after the first
    iteration that raises. *)
Fixpoint started (d : Disk) (fs : list string) : nat :=
  match fs with
  | [] => O
  | f :: rest =>
      match status d f with
      | Ok _ => S (started d rest)
      | Raise _ => 1%nat
      end
  end.

(** The per-file outcomes the specification distinguishes. *)
Inductive outcome (d : Disk) (f : string) : Prop :=
| missing :
    exists_on d (path_of f) = false -> outcome d f
| decode_failure (msg : string) :
    exists_on d (path_of f) = true ->
    open_on d (path_of f) = Raise (Exception msg) -> outcome d f
| pixel_read_failure (im : Image) (msg : string) :
    open_on d (path_of f) = Ok im ->
    sample im = Raise (Exception msg) -> outcome d f
| success (im : Image) (ps : list pixel) :
    open_on d (path_of f) = Ok im ->
    sample im = Ok ps -> outcome d f.

(** An error of the one kind the handler lets through, raised by the open
    or by a corner read of a path that exists. *)
Definition fatal_at (d : Disk) (f : string) (e : exn) : Prop :=
  is_Exception e = false /\
  exists_on d (path_of f) = true /\
  (open_on d (path_of f) = Raise e \/
   exists im, open_on d (path_of f) = Ok im /\ sample im = Raise e).

(* ------------------------------------------------------------------ *)
(** Sample disks *)

(** A 2x2 RGB image with four different corners. *)
Definition rgb_2x2 : Image :=
  {| mode := "RGB"; width := 2; height := 2;
     getpixel := fun xy =>
       match xy with
       | (0, 0) => Ok (PTuple [255; 0; 0])
       | (1, 0) => Ok (PTuple [0; 255; 0])
       | (0, 1) => Ok (PTuple [0; 0; 255])
       | (1, 1) => Ok (PTuple [9; 9; 9])
       | _ => Raise (Exception "image index out of range")
       end |}.

(** An image whose header decodes but whose data is cut short: every pixel
    read raises. *)
Definition truncated_3x1 : Image :=
  {| mode := "L"; width := 3; height := 1;
     getpixel := fun _ => Raise (Exception "image file is truncated") |}.

(** An image whose decoding is interrupted from the keyboard at the second
    corner. *)
Definition interrupted_2x2 : Image :=
  {| mode := "L"; width := 2; height := 2;
     getpixel := fun xy =>
       match xy with
       | (0, 0) => Ok (PInt 7)
       | _ => Raise (BaseException "")
       end |}.

(** A disk with one of each: a good image, a corrupt file, a directory, a
    truncated image, and nothing for the last name. *)
Definition mixed_disk : Disk :=
  fun p =>
    if String.eqb p (path_of "saver.webp") then Regular (Ok rgb_2x2)
    else if String.eqb p (path_of "comfort.webp") then
      Regular (Raise (Exception "cannot identify image file"))
    else if String.eqb p (path_of "vip.webp") then
      Directory "[Errno 13] Permission denied"
    else if String.eqb p (path_of "taxi.webp") then Regular (Ok truncated_3x1)
    else Absent.


(** The second file is interrupted while its corners are read. *)
Definition interrupted_disk : Disk :=
  fun p =>
    if String.eqb p (path_of "comfort.webp") then Regular (Ok interrupted_2x2)
    else Absent.

(* ------------------------------------------------------------------ *)
(** Further readings of the call log and of the loop *)

(** The coordinates read with [getpixel], in the order read. *)
Fixpoint pixel_reads (cs : list Call) : list (Z * Z) :=
  match cs with
  | [] => []
  | call_getpixel xy :: rest => xy :: pixel_reads rest
  | _ :: rest => pixel_reads rest
  end.

(** The paths handed to [Image.open], in the order opened. *)
Fixpoint opens (cs : list Call) : list string :=
  match cs with
  | [] => []
  | call_open p :: rest => p :: opens rest
  | _ :: rest => opens rest
  end.

(** The image the name [img] holds after the loop has gone through the
    names [fs], when it held [held] before: that of the last name whose
    open succeeded. *)
Fixpoint last_opened (d : Disk) (fs : list string) (held : option Image)
  : option Image :=
  match fs with
  | [] => held
  | f :: rest =>
      last_opened d rest
        match open_on d (path_of f) with
        | Ok im => Some im
        | Raise _ => held
        end
  end.

(** A one-pixel grayscale image. *)
Definition gray_1x1 : Image :=
  {| mode := "L"; width := 1; height := 1;
     getpixel := fun xy =>
       match xy with
       | (0, 0) => Ok (PInt 128)
       | _ => Raise (Exception "image index out of range")
       end |}.

(** An image whose third corner cannot be read. *)
Definition torn_2x2 : Image :=
  {| mode := "L"; width := 2; height := 2;
     getpixel := fun xy =>
       match xy with
       | (0, 0) => Ok (PInt 1)
       | (1, 0) => Ok (PInt 2)
       | _ => Raise (Exception "image file is truncated")
       end |}.

(** Only the first name is there, as a one-pixel image. *)
Definition tiny_disk : Disk :=
  fun p =>
    if String.eqb p (path_of "saver.webp") then Regular (Ok gray_1x1)
    else Absent.

(** Only the third name is there, as the torn image. *)
Definition torn_disk : Disk :=
  fun p =>
    if String.eqb p (path_of "vip.webp") then Regular (Ok torn_2x2)
    else Absent.

(* ------------------------------------------------------------------ *)
(** Standard output that can fail *)











(* ------------------------------------------------------------------ *)
(** File handles *)

(** What Pillow does with the file it opened for an image, as its
    documentation on file handling has it.  [Image.open] opens the file and
    leaves it open, the pixel data being read at the first pixel access;
    when the file cannot be identified, Pillow closes it before raising.
    The first pixel access loads the image: for a single-frame format the
    file is closed once loaded, for a format whose plugin keeps the file
    for later frames (GIF, TIFF, animated PNG) it stays open.  The two
    fields say, for the file at a path, whether it is kept open after a
    first access that returned a pixel, and after one that raised. *)
Record FileHandling : Type := mkFileHandling {
  kept_after_load : string -> bool;
  kept_after_failed_read : string -> bool
}.

(** The files open at some point of a call log, and the path of the image
    that has been opened and not yet accessed. *)
Record Handles : Type := mkHandles {
  open_files : list string;
  pending : option string
}.

Definition close_file (p : string) (ps : list string) : list string :=
  filter (fun q => negb (String.eqb q p)) ps.

(** The effect of one library call on the handles.  The script makes no
    call that releases a file: it has no [with] block and calls neither
    [close] nor [del]. *)
Definition step_handles (ph : FileHandling) (d : Disk) (h : Handles) (c : Call)
  : Handles :=
  match c with
  | call_open p =>
      match open_on d p with
      | Ok _ => {| open_files := open_files h ++ [p]; pending := Some p |}
      | Raise _ => {| open_files := open_files h; pending := None |}
      end
  | call_getpixel xy =>
      match pending h with
      | Some p =>
          match open_on d p with
          | Ok im =>
              let kept :=
                match getpixel im xy with
                | Ok _ => kept_after_load ph p
                | Raise _ => kept_after_failed_read ph p
                end in
              {| open_files :=
                   if kept then open_files h else close_file p (open_files h);
                 pending := None |}
          | Raise _ => h
          end
      | None => h
      end
  | call_exists _ => h
  | call_print _ => h
  end.

Definition handles_along (ph : FileHandling) (d : Disk) (cs : list Call)
  : Handles :=
  fold_left (step_handles ph d) cs {| open_files := []; pending := None |}.

(** The files an iteration opened that are still open when it ends. *)
Definition left_open (ph : FileHandling) (d : Disk) (f : string)
  : list string :=
  open_files (handles_along ph d (trace d f)).

(** A two-frame GIF animation, two pixels by two, stored under the first
    name: Pillow identifies a file by its content, not by its name. *)
Definition animation_2x2 : Image :=
  {| mode := "P"; width := 2; height := 2;
     getpixel := fun xy =>
       match xy with
       | (0, 0) => Ok (PInt 0)
       | (1, 0) => Ok (PInt 1)
       | (0, 1) => Ok (PInt 2)
       | (1, 1) => Ok (PInt 3)
       | _ => Raise (Exception "image index out of range")
       end |}.

Definition animation_disk : Disk :=
  fun p =>
    if String.eqb p (path_of "saver.webp") then Regular (Ok animation_2x2)
    else Absent.

(** Pillow on that disk: the animation's file is kept for its later
    frames. *)
Definition keeps_animation : FileHandling :=
  {| kept_after_load := fun p => String.eqb p (path_of "saver.webp");
     kept_after_failed_read := fun _ => false |}.

(** Pillow on a disk of single-frame files: every file is closed once
    loaded. *)
Definition closes_all : FileHandling :=
  {| kept_after_load := fun _ => false;
     kept_after_failed_read := fun _ => false |}.

(* ================================================================== *)
(** ** One iteration *)

Arguments os_path_join : simpl never.
Arguments append : simpl never.

(** The loop body, with its path named. *)
Lemma loop_body_eq (f : string) :
  loop_body f =
  (found <- os_path_exists (path_of f) ;;
   if found : bool then
     try_except_Exception
       (try_body f (path_of f))
       (fun e => print ("  Error reading " ++ f ++ ": " ++ e))
   else
     print (f ++ " not found")).
Proof.
  unfold loop_body, path_of. reflexivity.
Qed.

Ltac unfold_body :=
  unfold status, block, trace;
  rewrite ?loop_body_eq;
  unfold try_body, try_except_Exception,
    bind, ret, os_path_exists, Image_open, assign_img, Image_getpixel, print,
    log, initial.

Ltac step_state := cbn [disk stdout calls img fst snd app].

Ltac flatten_apps :=
  repeat rewrite <- app_assoc; cbn [app]; repeat rewrite app_nil_r.

(** An iteration reads nothing of the state but the disk: run from any
    state, it ends as it does from a fresh one, appends the same lines and
    the same calls, and rebinds [img] exactly when it does so there. *)
Lemma loop_body_frame (f : string) (s : State) :
  loop_body f s =
  (status (disk s) f,
   {| disk := disk s;
      stdout := stdout s ++ block (disk s) f;
      calls := calls s ++ trace (disk s) f;
      img := match img (snd (loop_body f (initial (disk s)))) with
             | Some im => Some im
             | None => img s
             end |}).
Proof.
  unfold_body. generalize (path_of f) as p. intro p.
  cbn [disk stdout calls img fst snd].
  destruct (exists_on (disk s) p); cbn [disk stdout calls img fst snd app].
  - destruct (open_on (disk s) p) as [im | [msg | msg]];
      cbn [disk stdout calls img fst snd app].
    + destruct (getpixel im (0, 0)) as [c0 | [m | m]];
        cbn [disk stdout calls img fst snd app];
        [ | flatten_apps; reflexivity ..].
      destruct (getpixel im (width im - 1, 0)) as [c1 | [m | m]];
        cbn [disk stdout calls img fst snd app];
        [ | flatten_apps; reflexivity ..].
      destruct (getpixel im (0, height im - 1)) as [c2 | [m | m]];
        cbn [disk stdout calls img fst snd app];
        [ | flatten_apps; reflexivity ..].
      destruct (getpixel im (width im - 1, height im - 1)) as [c3 | [m | m]];
        cbn [disk stdout calls img fst snd app];
        flatten_apps; reflexivity.
    + flatten_apps; reflexivity.
    + flatten_apps; reflexivity.
  - flatten_apps; reflexivity.
Qed.


Lemma exists_of_open (d : Disk) (p : string) (im : Image) :
  open_on d p = Ok im -> exists_on d p = true.
Proof.
  unfold open_on, exists_on, os_stat.
  destruct (d p); intro H; try discriminate; reflexivity.
Qed.

Lemma exists_of_directory (d : Disk) (p err : string) :
  d p = Directory err ->
  exists_on d p = true /\ open_on d p = Raise (Exception err).
Proof.
  unfold open_on, exists_on, os_stat. intros ->. split; reflexivity.
Qed.


(** The name is not there: one line, one call besides the print. *)
Lemma body_missing (d : Disk) (f : string) :
  exists_on d (path_of f) = false ->
  loop_body f (initial d) =
  (Ok tt,
   {| disk := d;
      stdout := [not_found_line f];
      calls := [call_exists (path_of f); call_print (not_found_line f)];
      img := None |}).
Proof.
  intro He. unfold_body. step_state. rewrite He. reflexivity.
Qed.

(** The open raises an [Exception]: the handler prints its line. *)
Lemma body_open_raises (d : Disk) (f msg : string) :
  exists_on d (path_of f) = true ->
  open_on d (path_of f) = Raise (Exception msg) ->
  loop_body f (initial d) =
  (Ok tt,
   {| disk := d;
      stdout := [error_line f msg];
      calls := [call_exists (path_of f); call_open (path_of f);
                call_print (error_line f msg)];
      img := None |}).
Proof.
  intros He Ho. unfold_body. step_state. rewrite He. step_state.
  rewrite Ho. reflexivity.
Qed.

(** The open raises something the handler does not take. *)
Lemma body_open_fatal (d : Disk) (f msg : string) :
  exists_on d (path_of f) = true ->
  open_on d (path_of f) = Raise (BaseException msg) ->
  loop_body f (initial d) =
  (Raise (BaseException msg),
   {| disk := d;
      stdout := [];
      calls := [call_exists (path_of f); call_open (path_of f)];
      img := None |}).
Proof.
  intros He Ho. unfold_body. step_state. rewrite He. step_state.
  rewrite Ho. reflexivity.
Qed.

(** All four corners are read: two lines, six calls besides the prints. *)
Lemma body_sampled (d : Disk) (f : string) (im : Image) (ps : list pixel) :
  open_on d (path_of f) = Ok im ->
  sample im = Ok ps ->
  loop_body f (initial d) =
  (Ok tt,
   {| disk := d;
      stdout := [mode_line f im; corners_line ps];
      calls := [call_exists (path_of f); call_open (path_of f);
                call_print (mode_line f im);
                call_getpixel (0, 0);
                call_getpixel (width im - 1, 0);
                call_getpixel (0, height im - 1);
                call_getpixel (width im - 1, height im - 1);
                call_print (corners_line ps)];
      img := Some im |}).
Proof.
  intros Ho Hs. pose proof (exists_of_open _ _ _ Ho) as He.
  unfold sample, corner_coords, read_all in Hs.
  unfold_body. step_state. rewrite He. step_state. rewrite Ho. step_state.
  destruct (getpixel im (0, 0)) as [c0 | e0]; [ | discriminate Hs].
  destruct (getpixel im (width im - 1, 0)) as [c1 | e1];
    [ | discriminate Hs].
  destruct (getpixel im (0, height im - 1)) as [c2 | e2];
    [ | discriminate Hs].
  destruct (getpixel im (width im - 1, height im - 1)) as [c3 | e3];
    [ | discriminate Hs].
  injection Hs as <-. reflexivity.
Qed.

(** A corner read raises an [Exception]: the mode line is out already, the
    handler adds its line, the image stays bound. *)
Lemma body_read_raises (d : Disk) (f : string) (im : Image) (msg : string) :
  open_on d (path_of f) = Ok im ->
  sample im = Raise (Exception msg) ->
  status d f = Ok tt /\
  block d f = [mode_line f im; error_line f msg] /\
  img (snd (loop_body f (initial d))) = Some im /\
  exists_checks (trace d f) = [path_of f].
Proof.
  intros Ho Hs. pose proof (exists_of_open _ _ _ Ho) as He.
  unfold sample, corner_coords, read_all in Hs.
  unfold_body. step_state. rewrite He. step_state. rewrite Ho. step_state.
  destruct (getpixel im (0, 0)) as [c0 | e0]; step_state;
    [ | injection Hs as ->; repeat split; reflexivity].
  destruct (getpixel im (width im - 1, 0)) as [c1 | e1]; step_state;
    [ | injection Hs as ->; repeat split; reflexivity].
  destruct (getpixel im (0, height im - 1)) as [c2 | e2]; step_state;
    [ | injection Hs as ->; repeat split; reflexivity].
  destruct (getpixel im (width im - 1, height im - 1)) as [c3 | e3];
    step_state;
    [ discriminate Hs | injection Hs as ->; repeat split; reflexivity].
Qed.

(** A corner read raises something the handler does not take. *)
Lemma body_read_fatal (d : Disk) (f : string) (im : Image) (msg : string) :
  open_on d (path_of f) = Ok im ->
  sample im = Raise (BaseException msg) ->
  status d f = Raise (BaseException msg) /\
  block d f = [mode_line f im] /\
  img (snd (loop_body f (initial d))) = Some im.
Proof.
  intros Ho Hs. pose proof (exists_of_open _ _ _ Ho) as He.
  unfold sample, corner_coords, read_all in Hs.
  unfold_body. step_state. rewrite He. step_state. rewrite Ho. step_state.
  destruct (getpixel im (0, 0)) as [c0 | e0]; step_state;
    [ | injection Hs as ->; repeat split; reflexivity].
  destruct (getpixel im (width im - 1, 0)) as [c1 | e1]; step_state;
    [ | injection Hs as ->; repeat split; reflexivity].
  destruct (getpixel im (0, height im - 1)) as [c2 | e2]; step_state;
    [ | injection Hs as ->; repeat split; reflexivity].
  destruct (getpixel im (width im - 1, height im - 1)) as [c3 | e3];
    step_state;
    [ discriminate Hs | injection Hs as ->; repeat split; reflexivity].
Qed.

(** However the iteration goes, it asks once whether its path exists. *)
Lemma trace_exists_checks (d : Disk) (f : string) :
  exists_checks (trace d f) = [path_of f].
Proof.
  unfold_body. generalize (path_of f) as p. intro p. step_state.
  destruct (exists_on d p); step_state; [ | reflexivity].
  destruct (open_on d p) as [im | [msg | msg]]; step_state;
    [ | reflexivity ..].
  destruct (getpixel im (0, 0)) as [c0 | [m | m]]; step_state;
    [ | reflexivity ..].
  destruct (getpixel im (width im - 1, 0)) as [c1 | [m | m]]; step_state;
    [ | reflexivity ..].
  destruct (getpixel im (0, height im - 1)) as [c2 | [m | m]]; step_state;
    [ | reflexivity ..].
  destruct (getpixel im (width im - 1, height im - 1)) as [c3 | [m | m]];
    step_state; reflexivity.
Qed.

Lemma exists_checks_app (xs ys : list Call) :
  exists_checks (xs ++ ys) = (exists_checks xs ++ exists_checks ys)%list.
Proof.
  induction xs as [ | c xs IH]; [reflexivity | ].
  destruct c; cbn [app exists_checks]; rewrite IH; reflexivity.
Qed.

(** Reading the corners either gives four pixels or raises. *)
Lemma sample_cases (im : Image) :
  (exists ps, sample im = Ok ps) \/
  (exists msg, sample im = Raise (Exception msg)) \/
  (exists msg, sample im = Raise (BaseException msg)).
Proof.
  destruct (sample im) as [ps | [msg | msg]]; eauto.
Qed.

(** An iteration raises exactly the errors that are fatal at its name. *)
Lemma status_raise_iff (d : Disk) (f : string) (e : exn) :
  status d f = Raise e <-> fatal_at d f e.
Proof.
  unfold fatal_at. split.
  - intro Hst.
    destruct (exists_on d (path_of f)) eqn:He.
    + destruct (open_on d (path_of f)) as [im | [msg | msg]] eqn:Ho.
      * destruct (sample_cases im) as [[ps Hs] | [[msg Hs] | [msg Hs]]].
        -- unfold status in Hst.
           rewrite (body_sampled d f im ps Ho Hs) in Hst. discriminate Hst.
        -- destruct (body_read_raises d f im msg Ho Hs) as [H _].
           rewrite H in Hst. discriminate Hst.
        -- destruct (body_read_fatal d f im msg Ho Hs) as [H _].
           rewrite H in Hst. injection Hst as <-.
           split; [reflexivity | ]. split; [reflexivity | ].
           right. exists im. split; [reflexivity | exact Hs].
      * unfold status in Hst.
        rewrite (body_open_raises d f msg He Ho) in Hst. discriminate Hst.
      * unfold status in Hst.
        rewrite (body_open_fatal d f msg He Ho) in Hst.
        injection Hst as <-. repeat split. left. reflexivity.
    + unfold status in Hst. rewrite (body_missing d f He) in Hst.
      discriminate Hst.
  - intros [Hcls [He [Ho | [im [Ho Hs]]]]].
    + destruct e as [msg | msg]; [discriminate Hcls | ].
      unfold status. rewrite (body_open_fatal d f msg He Ho). reflexivity.
    + destruct e as [msg | msg]; [discriminate Hcls | ].
      apply (body_read_fatal d f im msg Ho Hs).
Qed.

(** Each of the four outcomes lets the loop go on. *)
Lemma outcome_status (d : Disk) (f : string) :
  outcome d f -> status d f = Ok tt.
Proof.
  intros [He | msg He Ho | im msg Ho Hs | im ps Ho Hs]; unfold status.
  - rewrite (body_missing d f He). reflexivity.
  - rewrite (body_open_raises d f msg He Ho). reflexivity.
  - apply (body_read_raises d f im msg Ho Hs).
  - rewrite (body_sampled d f im ps Ho Hs). reflexivity.
Qed.

(* ================================================================== *)
(** ** The loop *)

Lemma for_in_cons (f : string) (fs : list string) (s : State) :
  for_in (f :: fs) loop_body s =
  match loop_body f s with
  | (Ok _, s') => for_in fs loop_body s'
  | (Raise e, s') => (Raise e, s')
  end.
Proof. reflexivity. Qed.

(** The loop leaves the disk as it found it, prints the blocks of the names
    it started on, in their order, and asks about exactly those names. *)
Lemma loop_spec (fs : list string) (s : State) :
  disk (snd (for_in fs loop_body s)) = disk s /\
  stdout (snd (for_in fs loop_body s)) =
    (stdout s ++
     flat_map (block (disk s)) (firstn (started (disk s) fs) fs))%list /\
  exists_checks (calls (snd (for_in fs loop_body s))) =
    (exists_checks (calls s) ++
     map path_of (firstn (started (disk s) fs) fs))%list.
Proof.
  revert s. induction fs as [ | f fs IH]; intro s.
  - cbn. rewrite !app_nil_r. auto.
  - rewrite for_in_cons, loop_body_frame. cbn [started].
    destruct (status (disk s) f) as [[] | e].
    + match goal with
      | |- context [for_in fs loop_body ?t] =>
          destruct (IH t) as [Hd [Ho Hc]]
      end.
      cbn [disk stdout calls] in Hd, Ho, Hc.
      rewrite Hd, Ho, Hc. split; [reflexivity | ].
      cbn [firstn flat_map map].
      rewrite exists_checks_app, trace_exists_checks.
      rewrite <- !app_assoc. split; reflexivity.
    + cbn [snd disk stdout calls firstn flat_map map].
      rewrite exists_checks_app, trace_exists_checks, app_nil_r.
      repeat split.
Qed.

(** How the loop ends: normally when no started iteration raises. *)
Lemma loop_result (fs : list string) (s : State) :
  fst (for_in fs loop_body s) = Ok tt <->
  (forall f, In f fs -> status (disk s) f = Ok tt).
Proof.
  revert s. induction fs as [ | f fs IH]; intro s.
  - cbn. split; [intros _ f [] | reflexivity].
  - rewrite for_in_cons, loop_body_frame.
    destruct (status (disk s) f) as [[] | e] eqn:Hst.
    + rewrite IH. cbn [disk]. split.
      * intros H g [<- | Hg]; [exact Hst | apply H; exact Hg].
      * intros H g Hg. apply H. right. exact Hg.
    + cbn [fst]. split; [discriminate | ].
      intro H. specialize (H f (or_introl eq_refl)). congruence.
Qed.

(** When nothing raises, the loop starts on every name. *)
Lemma started_all (d : Disk) (fs : list string) :
  (forall f, In f fs -> status d f = Ok tt) ->
  started d fs = List.length fs.
Proof.
  induction fs as [ | f fs IH]; intro H; [reflexivity | ].
  cbn [started List.length]. rewrite (H f (or_introl eq_refl)).
  f_equal. apply IH. intros g Hg. apply H. right. exact Hg.
Qed.


(* ================================================================== *)
(** ** The claims *)

(** C1.  For a file that opens as an image [im], whose four corners read
    directly give [p0] at (0,0), [p1] at (width-1,0), [p2] at (0,height-1)
    and [p3] at (width-1,height-1), the iteration prints the mode-and-size
    line and then one corners line listing exactly [p0, p1, p2, p3], in that
    order, and it made exactly those four reads, in that order. *)
Theorem corners_match_direct_reads
    (f : string) (s : State) (im : Image) (p0 p1 p2 p3 : pixel) :
  open_on (disk s) (path_of f) = Ok im ->
  getpixel im (0, 0) = Ok p0 ->
  getpixel im (width im - 1, 0) = Ok p1 ->
  getpixel im (0, height im - 1) = Ok p2 ->
  getpixel im (width im - 1, height im - 1) = Ok p3 ->
  stdout (snd (loop_body f s)) =
    (stdout s ++
     [ mode_line f im; corners_line [p0; p1; p2; p3] ])%list /\
  calls (snd (loop_body f s)) =
    (calls s ++
     [ call_exists (path_of f); call_open (path_of f);
       call_print (mode_line f im);
       call_getpixel (0, 0);
       call_getpixel (width im - 1, 0);
       call_getpixel (0, height im - 1);
       call_getpixel (width im - 1, height im - 1);
       call_print (corners_line [p0; p1; p2; p3]) ])%list.
Proof.
  intros Ho H0 H1 H2 H3.
  assert (Hs : sample im = Ok [p0; p1; p2; p3]).
  { unfold sample, corner_coords, read_all.
    rewrite H0, H1, H2, H3. reflexivity. }
  rewrite loop_body_frame. cbn [snd stdout calls].
  unfold block, trace. rewrite (body_sampled _ f im _ Ho Hs).
  cbn [snd stdout calls]. split; reflexivity.
Qed.

Lemma corners_match_direct_reads_witness :
  stdout (snd (loop_body "saver.webp" (initial mixed_disk))) =
    [ "saver.webp: Mode=RGB, Size=(2, 2)";
      "  Corners: [(255, 0, 0), (0, 255, 0), (0, 0, 255), (9, 9, 9)]" ].
Proof.
  exact (proj1 (corners_match_direct_reads
                  "saver.webp" (initial mixed_disk) rgb_2x2
                  (PTuple [255; 0; 0]) (PTuple [0; 255; 0])
                  (PTuple [0; 0; 255]) (PTuple [9; 9; 9])
                  eq_refl eq_refl eq_refl eq_refl eq_refl)).
Defined.

(** C2, as stated, fails.  On [mixed_disk] the corrupt file
    [comfort.webp] is reported on a line that starts with two spaces, so
    the output is not the bare ["Error reading ..."] string; and the
    truncated image [taxi.webp], whose first corner read raises, has its
    mode line printed before that report. *)
Lemma error_report_not_bare :
  stdout (snd (loop_body "comfort.webp" (initial mixed_disk))) =
    [ "  Error reading comfort.webp: cannot identify image file" ] /\
  stdout (snd (loop_body "comfort.webp" (initial mixed_disk))) <>
    [ "Error reading comfort.webp: cannot identify image file" ] /\
  stdout (snd (loop_body "taxi.webp" (initial mixed_disk))) =
    [ "taxi.webp: Mode=L, Size=(3, 1)";
      "  Error reading taxi.webp: image file is truncated" ] /\
  stdout (snd (loop_body "taxi.webp" (initial mixed_disk))) <>
    [ "Error reading taxi.webp: image file is truncated" ].
Proof.
  split; [reflexivity | ]. split; [discriminate | ].
  split; [reflexivity | discriminate].
Qed.

(** C2, amended.  For a path that exists and whose open raises an
    [Exception] with text [msg], or opens as an image one of whose corner
    reads raises an [Exception] with text [msg], the iteration prints the
    line made of two spaces, ["Error reading "], the name, [": "] and [msg];
    when the image had opened, that line comes after the image's mode line
    and nothing else is printed; the iteration ends normally and the loop
    goes on with the names that follow. *)
Theorem error_report (f : string) (s : State) (msg : string) :
  exists_on (disk s) (path_of f) = true ->
  (open_on (disk s) (path_of f) = Raise (Exception msg) \/
   exists im, open_on (disk s) (path_of f) = Ok im /\
              sample im = Raise (Exception msg)) ->
  stdout (snd (loop_body f s)) =
    (stdout s ++
     match open_on (disk s) (path_of f) with
     | Ok im => [mode_line f im]
     | Raise _ => []
     end ++
     [error_line f msg])%list /\
  error_line f msg = "  " ++ "Error reading " ++ f ++ ": " ++ msg /\
  fst (loop_body f s) = Ok tt /\
  (forall rest,
     for_in (f :: rest) loop_body s =
     for_in rest loop_body (snd (loop_body f s))).
Proof.
  intros He Hfail.
  assert (Hst : status (disk s) f = Ok tt /\
                block (disk s) f =
                  (match open_on (disk s) (path_of f) with
                   | Ok im => [mode_line f im]
                   | Raise _ => []
                   end ++ [error_line f msg])%list).
  { destruct Hfail as [Ho | [im [Ho Hs]]].
    - unfold status, block. rewrite (body_open_raises _ f msg He Ho), Ho.
      split; reflexivity.
    - destruct (body_read_raises _ f im msg Ho Hs) as [H1 [H2 _]].
      rewrite Ho. split; [exact H1 | exact H2]. }
  destruct Hst as [Hst Hbl].
  split; [ | split; [reflexivity | split]].
  - rewrite loop_body_frame. cbn [snd stdout]. rewrite Hbl. reflexivity.
  - rewrite loop_body_frame. exact Hst.
  - intro rest. rewrite for_in_cons.
    assert (Hfst : fst (loop_body f s) = Ok tt)
      by (rewrite loop_body_frame; exact Hst).
    destruct (loop_body f s) as [r t]. cbn [fst snd] in *.
    rewrite Hfst. reflexivity.
Qed.

Lemma error_report_witness :
  stdout (snd (loop_body "taxi.webp" (initial mixed_disk))) =
    [ "taxi.webp: Mode=L, Size=(3, 1)";
      "  Error reading taxi.webp: image file is truncated" ].
Proof.
  exact (proj1 (error_report "taxi.webp" (initial mixed_disk)
                  "image file is truncated" eq_refl
                  (or_intror
                     (ex_intro _ truncated_3x1 (conj eq_refl eq_refl))))).
Defined.

(** C3.  For a name whose joined path does not exist, the iteration prints
    exactly the line made of the name and [" not found"], and the only
    library call it makes besides that print is the existence check: no
    open, no pixel read.  It ends normally and leaves [img] as it was. *)
Theorem missing_reports_not_found (f : string) (s : State) :
  exists_on (disk s) (path_of f) = false ->
  loop_body f s =
  (Ok tt,
   {| disk := disk s;
      stdout := stdout s ++ [f ++ " not found"];
      calls := calls s ++
                 [call_exists (path_of f); call_print (f ++ " not found")];
      img := img s |}).
Proof.
  intro He. rewrite loop_body_frame. unfold status, block, trace.
  rewrite (body_missing _ f He). reflexivity.
Qed.

Lemma missing_reports_not_found_witness :
  stdout (snd (loop_body "scooter.webp" (initial mixed_disk))) =
    [ "scooter.webp not found" ] /\
  calls (snd (loop_body "scooter.webp" (initial mixed_disk))) =
    [ call_exists (path_of "scooter.webp");
      call_print "scooter.webp not found" ].
Proof.
  rewrite (missing_reports_not_found "scooter.webp" (initial mixed_disk)
             eq_refl).
  split; reflexivity.
Defined.

(** C9.  When the open succeeds and a corner read then raises an
    [Exception], the iteration has printed the image's mode-and-size line
    before the error line: its output is those two lines, in that order,
    not the error line alone. *)
Theorem mode_line_precedes_error
    (f : string) (s : State) (im : Image) (msg : string) :
  open_on (disk s) (path_of f) = Ok im ->
  sample im = Raise (Exception msg) ->
  stdout (snd (loop_body f s)) =
    (stdout s ++ [mode_line f im; error_line f msg])%list /\
  stdout (snd (loop_body f s)) <> (stdout s ++ [error_line f msg])%list.
Proof.
  intros Ho Hs.
  destruct (body_read_raises _ f im msg Ho Hs) as [_ [Hbl _]].
  assert (Hout : stdout (snd (loop_body f s)) =
                 (stdout s ++ [mode_line f im; error_line f msg])%list).
  { rewrite loop_body_frame. cbn [snd stdout]. rewrite Hbl. reflexivity. }
  split; [exact Hout | ].
  rewrite Hout. intro Heq. apply app_inv_head in Heq. discriminate Heq.
Qed.

Lemma mode_line_precedes_error_witness :
  stdout (snd (loop_body "taxi.webp" (initial mixed_disk))) =
    [ "taxi.webp: Mode=L, Size=(3, 1)";
      "  Error reading taxi.webp: image file is truncated" ].
Proof.
  exact (proj1 (mode_line_precedes_error "taxi.webp" (initial mixed_disk)
                  truncated_3x1 "image file is truncated" eq_refl eq_refl)).
Defined.

Lemma length_append (a b : string) :
  String.length (a ++ b) = (String.length a + String.length b)%nat.
Proof.
  induction a as [ | c a IH]; [reflexivity | ].
  change (String c a ++ b) with (String c (a ++ b)).
  cbn [String.length]. rewrite IH. reflexivity.
Qed.

(** C10.  When the path of a name is a directory, the existence check
    answers yes, the open is attempted and raises, and the iteration prints
    the error report with the text of that error, not the not-found line. *)
Theorem directory_takes_decode_branch (f : string) (s : State) (err : string) :
  disk s (path_of f) = Directory err ->
  loop_body f s =
  (Ok tt,
   {| disk := disk s;
      stdout := stdout s ++ [error_line f err];
      calls := calls s ++
                 [call_exists (path_of f); call_open (path_of f);
                  call_print (error_line f err)];
      img := img s |}) /\
  error_line f err = "  Error reading " ++ f ++ ": " ++ err /\
  error_line f err <> f ++ " not found".
Proof.
  intro Hd. destruct (exists_of_directory _ _ _ Hd) as [He Ho].
  split; [ | split; [reflexivity | ]].
  - rewrite loop_body_frame. unfold status, block, trace.
    rewrite (body_open_raises _ f err He Ho). reflexivity.
  - intro Heq. apply (f_equal String.length) in Heq.
    unfold error_line in Heq. rewrite !length_append in Heq.
    cbn [String.length] in Heq. lia.
Qed.

Lemma directory_takes_decode_branch_witness :
  stdout (snd (loop_body "vip.webp" (initial mixed_disk))) =
    [ "  Error reading vip.webp: [Errno 13] Permission denied" ].
Proof.
  rewrite (proj1 (directory_takes_decode_branch "vip.webp"
                    (initial mixed_disk) "[Errno 13] Permission denied"
                    eq_refl)).
  reflexivity.
Defined.

(** C4.  When every listed name has one of the four outcomes (missing,
    decode failure, pixel-read failure, success), the run ends normally,
    it has asked about the paths of all five names, in the order listed,
    and it has printed the block of every one of them. *)
Theorem all_five_processed (d : Disk) :
  (forall f, In f files -> outcome d f) ->
  fst (run d) = Ok tt /\
  exists_checks (calls (snd (run d))) = map path_of files /\
  List.length (exists_checks (calls (snd (run d)))) = 5%nat /\
  stdout (snd (run d)) = flat_map (block d) files.
Proof.
  intro Hout.
  assert (Hst : forall f, In f files -> status d f = Ok tt)
    by (intros f Hf; apply outcome_status, Hout, Hf).
  unfold run, main.
  destruct (loop_spec files (initial d)) as [_ [Hlines Hchecks]].
  cbn [disk stdout calls initial exists_checks app] in Hlines, Hchecks.
  rewrite (started_all d files Hst), firstn_all in Hlines, Hchecks.
  split; [apply loop_result; exact Hst | ].
  split; [exact Hchecks | ].
  split; [rewrite Hchecks; reflexivity | exact Hlines].
Qed.

Lemma all_five_processed_witness :
  fst (run mixed_disk) = Ok tt /\
  exists_checks (calls (snd (run mixed_disk))) = map path_of files.
Proof.
  assert (H : forall f, In f files -> outcome mixed_disk f).
  { intros f Hf. cbn [files In] in Hf.
    destruct Hf as [<- | [<- | [<- | [<- | [<- | []]]]]].
    - exact (success mixed_disk "saver.webp" rgb_2x2
               [PTuple [255; 0; 0]; PTuple [0; 255; 0];
                PTuple [0; 0; 255]; PTuple [9; 9; 9]] eq_refl eq_refl).
    - exact (decode_failure mixed_disk "comfort.webp"
               "cannot identify image file" eq_refl eq_refl).
    - exact (decode_failure mixed_disk "vip.webp"
               "[Errno 13] Permission denied" eq_refl eq_refl).
    - exact (pixel_read_failure mixed_disk "taxi.webp" truncated_3x1
               "image file is truncated" eq_refl eq_refl).
    - exact (missing mixed_disk "scooter.webp" eq_refl). }
  destruct (all_five_processed mixed_disk H) as [H1 [H2 _]].
  split; [exact H1 | exact H2].
Defined.

(** C5.  On every disk, what the run has printed is the concatenation of
    the blocks of the names it started on, taken in the order of the list
    [saver.webp, comfort.webp, vip.webp, taxi.webp, scooter.webp]; it
    started on all five unless an iteration raised. *)
Theorem output_in_list_order (d : Disk) :
  files =
    ["saver.webp"; "comfort.webp"; "vip.webp"; "taxi.webp"; "scooter.webp"] /\
  stdout (snd (run d)) =
    flat_map (block d) (firstn (started d files) files) /\
  (started d files = 5%nat \/ exists e, fst (run d) = Raise e).
Proof.
  split; [reflexivity | ].
  unfold run, main.
  destruct (loop_spec files (initial d)) as [_ [Hlines _]].
  cbn [disk stdout initial app] in Hlines.
  split; [exact Hlines | ].
  destruct (fst (for_in files loop_body (initial d))) as [[] | e] eqn:Hr.
  - left. pose proof (proj1 (loop_result files (initial d)) Hr) as Hall.
    cbn [disk initial] in Hall.
    rewrite (started_all d files Hall). reflexivity.
  - right. exists e. reflexivity.
Qed.


(** C8.  The run leaves the disk as it found it, from any state. *)
Theorem disk_unchanged (s : State) :
  disk (snd (main s)) = disk s.
Proof.
  unfold main. exact (proj1 (loop_spec files s)).
Qed.

(* ================================================================== *)
(** ** Further properties of the script *)

(** What [img] holds after an iteration, for use in the loop. *)
Lemma img_after_iteration (f : string) (s : State) :
  img (snd (loop_body f s)) =
  match open_on (disk s) (path_of f) with
  | Ok im => Some im
  | Raise _ => img s
  end.
Proof.
  rewrite loop_body_frame. cbn [snd img].
  destruct (open_on (disk s) (path_of f)) as [im | e] eqn:Ho.
  - destruct (sample_cases im) as [[ps Hs] | [[msg Hs] | [msg Hs]]].
    + rewrite (body_sampled _ f im ps Ho Hs). reflexivity.
    + destruct (body_read_raises _ f im msg Ho Hs) as [_ [_ [H _]]].
      rewrite H. reflexivity.
    + destruct (body_read_fatal _ f im msg Ho Hs) as [_ [_ H]].
      rewrite H. reflexivity.
  - destruct (exists_on (disk s) (path_of f)) eqn:He.
    + destruct e as [msg | msg].
      * rewrite (body_open_raises _ f msg He Ho). reflexivity.
      * rewrite (body_open_fatal _ f msg He Ho). reflexivity.
    + rewrite (body_missing _ f He). reflexivity.
Qed.

(** The loop stops at the first name whose iteration raises. *)
Lemma loop_stops (pre post : list string) (f : string) (e : exn) (s : State) :
  (forall g, In g pre -> status (disk s) g = Ok tt) ->
  status (disk s) f = Raise e ->
  fst (for_in (pre ++ f :: post) loop_body s) = Raise e /\
  started (disk s) (pre ++ f :: post) = S (List.length pre).
Proof.
  revert s. induction pre as [ | g pre IH]; intros s Hpre Hf.
  - cbn [app List.length started]. rewrite for_in_cons, loop_body_frame, Hf.
    split; reflexivity.
  - cbn [app List.length started].
    rewrite for_in_cons, loop_body_frame.
    rewrite (Hpre g (or_introl eq_refl)).
    match goal with
    | |- context [for_in _ loop_body ?t] =>
        destruct (IH t) as [H1 H2];
        [ intros h Hh; apply Hpre; right; exact Hh | exact Hf | ]
    end.
    cbn [disk] in H2. rewrite H1, H2. split; reflexivity.
Qed.

(** How many lines an iteration prints, by the way it ends. *)
Lemma block_length_cases (d : Disk) (f : string) :
  match status d f with
  | Ok _ => (1 <= List.length (block d f) <= 2)%nat
  | Raise _ => (List.length (block d f) <= 1)%nat
  end.
Proof.
  destruct (exists_on d (path_of f)) eqn:He.
  - destruct (open_on d (path_of f)) as [im | [msg | msg]] eqn:Ho.
    + destruct (sample_cases im) as [[ps Hs] | [[msg Hs] | [msg Hs]]].
      * unfold status, block. rewrite (body_sampled d f im ps Ho Hs).
        cbn [fst snd stdout List.length]. lia.
      * destruct (body_read_raises d f im msg Ho Hs) as [H1 [H2 _]].
        rewrite H1, H2. cbn [fst snd stdout List.length]. lia.
      * destruct (body_read_fatal d f im msg Ho Hs) as [H1 [H2 _]].
        rewrite H1, H2. cbn [fst snd stdout List.length]. lia.
    + unfold status, block. rewrite (body_open_raises d f msg He Ho).
      cbn [fst snd stdout List.length]. lia.
    + unfold status, block. rewrite (body_open_fatal d f msg He Ho).
      cbn [fst snd stdout List.length]. lia.
  - unfold status, block. rewrite (body_missing d f He). cbn [fst snd stdout List.length]. lia.
Qed.

Lemma flat_map_block_length (d : Disk) (fs : list string) :
  (List.length (flat_map (block d) fs) <= 2 * List.length fs)%nat.
Proof.
  induction fs as [ | f fs IH]; [cbn [flat_map List.length]; lia | ].
  cbn [flat_map List.length]. rewrite length_app.
  pose proof (block_length_cases d f) as H.
  destruct (status d f); lia.
Qed.

Lemma flat_map_block_length_ok (d : Disk) (fs : list string) :
  (forall f, In f fs -> status d f = Ok tt) ->
  (List.length fs <= List.length (flat_map (block d) fs))%nat.
Proof.
  induction fs as [ | f fs IH]; intro Hok;
    [cbn [flat_map List.length]; lia | ].
  cbn [flat_map List.length]. rewrite length_app.
  pose proof (block_length_cases d f) as H.
  rewrite (Hok f (or_introl eq_refl)) in H.
  assert (List.length fs <= List.length (flat_map (block d) fs))%nat
    by (apply IH; intros g Hg; apply Hok; right; exact Hg).
  lia.
Qed.

(** X1.  When the names before [f] in the list all have one of the four
    per-file outcomes and an error that is not an [Exception] is raised for
    [f], the run ends with that error, and the names after [f] are never
    looked at: the existence checks made and the blocks printed are those
    of the names up to and including [f]. *)
Theorem nothing_after_uncaught
    (d : Disk) (pre post : list string) (f : string) (e : exn) :
  files = (pre ++ f :: post)%list ->
  (forall g, In g pre -> outcome d g) ->
  fatal_at d f e ->
  fst (run d) = Raise e /\
  exists_checks (calls (snd (run d))) = map path_of (pre ++ [f]) /\
  stdout (snd (run d)) = flat_map (block d) (pre ++ [f]).
Proof.
  intros Hfiles Hpre Hfatal. unfold run, main. rewrite Hfiles.
  assert (Hok : forall g, In g pre -> status d g = Ok tt)
    by (intros g Hg; apply outcome_status, Hpre, Hg).
  apply status_raise_iff in Hfatal.
  destruct (loop_stops pre post f e (initial d) Hok Hfatal) as [Hr Hn].
  destruct (loop_spec (pre ++ f :: post) (initial d)) as [_ [Hlines Hchecks]].
  cbn [disk stdout calls initial exists_checks app] in Hlines, Hchecks, Hn.
  rewrite Hn in Hlines, Hchecks.
  assert (Hcut : firstn (S (List.length pre)) (pre ++ f :: post) =
                 (pre ++ [f])%list).
  { clear. induction pre as [ | g pre IH]; [reflexivity | ].
    cbn [app List.length]. rewrite firstn_cons, IH. reflexivity. }
  rewrite Hcut in Hlines, Hchecks.
  split; [exact Hr | split; [exact Hchecks | exact Hlines]].
Qed.

Lemma nothing_after_uncaught_witness :
  fst (run interrupted_disk) = Raise (BaseException "") /\
  exists_checks (calls (snd (run interrupted_disk))) =
    [path_of "saver.webp"; path_of "comfort.webp"] /\
  stdout (snd (run interrupted_disk)) =
    [ "saver.webp not found"; "comfort.webp: Mode=L, Size=(2, 2)" ].
Proof.
  destruct (nothing_after_uncaught interrupted_disk
              ["saver.webp"] ["vip.webp"; "taxi.webp"; "scooter.webp"]
              "comfort.webp" (BaseException "") eq_refl)
    as [H1 [H2 H3]].
  - intros g [<- | []]. exact (missing interrupted_disk "saver.webp" eq_refl).
  - split; [reflexivity | ]. split; [reflexivity | ].
    right. exists interrupted_2x2. split; reflexivity.
  - split; [exact H1 | split; [exact H2 | exact H3]].
Defined.

(** X2.  An iteration that ends normally prints one or two lines; one that
    raises prints at most one.  A run therefore never prints more than ten
    lines, and one that ends normally prints at least five. *)
Theorem line_counts (d : Disk) :
  (forall f,
     match status d f with
     | Ok _ => (1 <= List.length (block d f) <= 2)%nat
     | Raise _ => (List.length (block d f) <= 1)%nat
     end) /\
  (List.length (stdout (snd (run d))) <= 10)%nat /\
  (fst (run d) = Ok tt -> (5 <= List.length (stdout (snd (run d))))%nat).
Proof.
  split; [intro f; apply block_length_cases | ].
  unfold run, main.
  destruct (loop_spec files (initial d)) as [_ [Hlines _]].
  cbn [disk stdout initial app] in Hlines. rewrite Hlines. split.
  - pose proof (flat_map_block_length d
                  (firstn (started d files) files)) as H.
    pose proof (length_firstn (started d files) files) as Hn.
    change (List.length files) with 5%nat in Hn. lia.
  - intro Hr.
    pose proof (proj1 (loop_result files (initial d)) Hr) as Hall.
    cbn [disk initial] in Hall.
    rewrite (started_all d files Hall), firstn_all.
    exact (flat_map_block_length_ok d files Hall).
Qed.

Lemma line_counts_witness :
  (5 <= List.length (stdout (snd (run mixed_disk))))%nat.
Proof.
  exact (proj2 (proj2 (line_counts mixed_disk)) eq_refl).
Defined.

(** X3.  When the open succeeds, the pixel reads made are the first [n] of
    the four corner coordinates, in order, for some [n] from 1 to 4: every
    read before the last one made returned a pixel, and either all four
    were made or the last one made raised.  No corner is read after a
    failed one. *)
Theorem pixel_reads_stop_at_first_failure
    (d : Disk) (f : string) (im : Image) :
  open_on d (path_of f) = Ok im ->
  exists n,
    (1 <= n <= 4)%nat /\
    pixel_reads (trace d f) = firstn n (corner_coords im) /\
    (forall xy, In xy (firstn (n - 1) (corner_coords im)) ->
                exists px, getpixel im xy = Ok px) /\
    (n = 4%nat \/
     exists xy e, nth_error (corner_coords im) (n - 1) = Some xy /\
                  getpixel im xy = Raise e).
Proof.
  intro Ho. pose proof (exists_of_open _ _ _ Ho) as He.
  unfold corner_coords. unfold_body. step_state.
  rewrite He. step_state. rewrite Ho. step_state.
  destruct (getpixel im (0, 0)) as [c0 | e0] eqn:G0.
  2:{ exists 1%nat. split; [lia | ]. split; [destruct e0; reflexivity | ].
      split; [intros xy [] | ].
      right. exists (0, 0), e0. split; [reflexivity | exact G0]. }
  destruct (getpixel im (width im - 1, 0)) as [c1 | e1] eqn:G1.
  2:{ exists 2%nat. split; [lia | ]. split; [destruct e1; reflexivity | ].
      split.
      - intros xy [<- | []]. exists c0. exact G0.
      - right. exists (width im - 1, 0), e1.
        split; [reflexivity | exact G1]. }
  destruct (getpixel im (0, height im - 1)) as [c2 | e2] eqn:G2.
  2:{ exists 3%nat. split; [lia | ]. split; [destruct e2; reflexivity | ].
      split.
      - intros xy [<- | [<- | []]]; [exists c0 | exists c1]; assumption.
      - right. exists (0, height im - 1), e2.
        split; [reflexivity | exact G2]. }
  exists 4%nat. split; [lia | ]. split.
  - destruct (getpixel im (width im - 1, height im - 1)) as [c3 | [m | m]];
      reflexivity.
  - split; [ | left; reflexivity].
    intros xy [<- | [<- | [<- | []]]];
      [exists c0 | exists c1 | exists c2]; assumption.
Qed.

Lemma pixel_reads_stop_at_first_failure_witness :
  exists n,
    (1 <= n <= 4)%nat /\
    pixel_reads (trace torn_disk "vip.webp") =
      firstn n (corner_coords torn_2x2) /\
    (forall xy, In xy (firstn (n - 1) (corner_coords torn_2x2)) ->
                exists px, getpixel torn_2x2 xy = Ok px) /\
    (n = 4%nat \/
     exists xy e, nth_error (corner_coords torn_2x2) (n - 1) = Some xy /\
                  getpixel torn_2x2 xy = Raise e).
Proof.
  exact (pixel_reads_stop_at_first_failure torn_disk "vip.webp" torn_2x2
           eq_refl).
Defined.

(** X4.  Every iteration begins by asking whether its own path exists; it
    hands that path, and no other, to [Image.open] exactly when the answer
    is yes; and it reads no pixel unless that open succeeded. *)
Theorem open_gated_by_exists (d : Disk) (f : string) :
  (exists rest, trace d f = call_exists (path_of f) :: rest) /\
  opens (trace d f) =
    (if exists_on d (path_of f) then [path_of f] else []) /\
  match open_on d (path_of f) with
  | Ok _ => True
  | Raise _ => pixel_reads (trace d f) = []
  end.
Proof.
  unfold_body. generalize (path_of f) as p. intro p. step_state.
  destruct (exists_on d p) eqn:He; step_state.
  2:{ split; [eexists; reflexivity | ]. split; [reflexivity | ].
      destruct (open_on d p); [exact I | reflexivity]. }
  destruct (open_on d p) as [im | [msg | msg]]; step_state.
  2,3: (split; [eexists; reflexivity | split; reflexivity]).
  destruct (getpixel im (0, 0)) as [c0 | [m | m]]; step_state.
  2,3: (split; [eexists; reflexivity | split; [reflexivity | exact I]]).
  destruct (getpixel im (width im - 1, 0)) as [c1 | [m | m]]; step_state.
  2,3: (split; [eexists; reflexivity | split; [reflexivity | exact I]]).
  destruct (getpixel im (0, height im - 1)) as [c2 | [m | m]]; step_state.
  2,3: (split; [eexists; reflexivity | split; [reflexivity | exact I]]).
  destruct (getpixel im (width im - 1, height im - 1)) as [c3 | [m | m]];
    step_state;
    (split; [eexists; reflexivity | split; [reflexivity | exact I]]).
Qed.

(** X5.  An iteration looks at nothing on the disk but its own path: on two
    disks that hold the same thing at the path of [f], the iteration for
    [f] ends the same way, prints the same lines and makes the same
    calls. *)
Theorem iteration_reads_own_path_only (d1 d2 : Disk) (f : string) :
  d1 (path_of f) = d2 (path_of f) ->
  status d1 f = status d2 f /\
  block d1 f = block d2 f /\
  trace d1 f = trace d2 f.
Proof.
  intro Hsame. unfold_body. unfold exists_on, os_stat, open_on.
  generalize dependent (path_of f). intros p Hsame. step_state.
  rewrite Hsame.
  destruct (d2 p) as [ | | err | [im | [msg | msg]]] eqn:H2; step_state;
    rewrite ?Hsame, ?H2; step_state;
    [repeat split .. | | repeat split | repeat split].
  destruct (getpixel im (0, 0)) as [c0 | [m | m]]; step_state;
    [ | repeat split ..].
  destruct (getpixel im (width im - 1, 0)) as [c1 | [m | m]]; step_state;
    [ | repeat split ..].
  destruct (getpixel im (0, height im - 1)) as [c2 | [m | m]]; step_state;
    [ | repeat split ..].
  destruct (getpixel im (width im - 1, height im - 1)) as [c3 | [m | m]];
    step_state; repeat split.
Qed.

Lemma iteration_reads_own_path_only_witness :
  block mixed_disk "scooter.webp" = block tiny_disk "scooter.webp".
Proof.
  exact (proj1 (proj2 (iteration_reads_own_path_only
                         mixed_disk tiny_disk "scooter.webp" eq_refl))).
Defined.

(** X6.  An error that the handler does not take is never reported by the
    script: the iteration ends with that error, and what it has printed is
    the mode line alone when the open had succeeded, and nothing when the
    open itself raised. *)
Theorem uncaught_error_is_not_reported (d : Disk) (f : string) (e : exn) :
  fatal_at d f e ->
  status d f = Raise e /\
  block d f =
    match open_on d (path_of f) with
    | Ok im => [mode_line f im]
    | Raise _ => []
    end.
Proof.
  intros [Hcls [He [Ho | [im [Ho Hs]]]]];
    (destruct e as [msg | msg]; [discriminate Hcls | ]).
  - unfold status, block. rewrite (body_open_fatal d f msg He Ho), Ho.
    split; reflexivity.
  - destruct (body_read_fatal d f im msg Ho Hs) as [H1 [H2 _]].
    rewrite Ho. split; [exact H1 | exact H2].
Qed.

Lemma uncaught_error_is_not_reported_witness :
  status interrupted_disk "comfort.webp" = Raise (BaseException "") /\
  block interrupted_disk "comfort.webp" =
    [ "comfort.webp: Mode=L, Size=(2, 2)" ].
Proof.
  apply (uncaught_error_is_not_reported interrupted_disk "comfort.webp"
           (BaseException "")).
  split; [reflexivity | ]. split; [reflexivity | ].
  right. exists interrupted_2x2. split; reflexivity.
Defined.

(** X7.  For an image one pixel wide and one pixel high the four corner
    coordinates are all (0,0): the iteration reads that pixel four times
    and prints it four times. *)
Theorem single_pixel_image
    (d : Disk) (f : string) (im : Image) (p : pixel) :
  open_on d (path_of f) = Ok im ->
  width im = 1 ->
  height im = 1 ->
  getpixel im (0, 0) = Ok p ->
  block d f = [mode_line f im; corners_line [p; p; p; p]] /\
  pixel_reads (trace d f) = [(0, 0); (0, 0); (0, 0); (0, 0)].
Proof.
  intros Ho Hw Hh Hp.
  assert (Hs : sample im = Ok [p; p; p; p]).
  { unfold sample, corner_coords, read_all. rewrite Hw, Hh.
    change (1 - 1) with 0. rewrite Hp. reflexivity. }
  unfold block, trace. rewrite (body_sampled d f im _ Ho Hs).
  cbn [snd stdout calls pixel_reads]. rewrite Hw, Hh.
  split; reflexivity.
Qed.

Lemma single_pixel_image_witness :
  block tiny_disk "saver.webp" =
    [ "saver.webp: Mode=L, Size=(1, 1)";
      "  Corners: [128, 128, 128, 128]" ].
Proof.
  exact (proj1 (single_pixel_image tiny_disk "saver.webp" gray_1x1
                  (PInt 128) eq_refl eq_refl eq_refl eq_refl)).
Defined.

(** X8.  After the loop has gone through a list of names, [img] holds the
    image of the last name it started on whose open succeeded, and what it
    held before the loop when none did. *)
Theorem img_after_loop (fs : list string) (s : State) :
  img (snd (for_in fs loop_body s)) =
  last_opened (disk s) (firstn (started (disk s) fs) fs) (img s).
Proof.
  revert s. induction fs as [ | f fs IH]; intro s; [reflexivity | ].
  rewrite for_in_cons. cbn [started].
  pose proof (img_after_iteration f s) as Himg.
  rewrite loop_body_frame in Himg |- *. cbn [snd img] in Himg.
  destruct (status (disk s) f) as [[] | e].
  - rewrite IH. cbn [disk img firstn last_opened].
    rewrite Himg. reflexivity.
  - cbn [snd img firstn last_opened]. exact Himg.
Qed.

(* ================================================================== *)
(** ** Standard output that can fail *)














(* ================================================================== *)
(** ** File handles *)

(** C7, as stated, fails.  The first name holds an animation whose file
    Pillow keeps open for its later frames: the iteration ends normally
    with that file still open, the script having released nothing. *)
Lemma handle_outlives_iteration :
  status animation_disk "saver.webp" = Ok tt /\
  left_open keeps_animation animation_disk "saver.webp" =
    [path_of "saver.webp"] /\
  left_open keeps_animation animation_disk "saver.webp" <> [].
Proof.
  split; [reflexivity | ]. split; [reflexivity | discriminate].
Qed.

(** C7, amended.  The script has no scoped acquisition and releases no
    handle itself; whether the file opened for a name is closed within its
    iteration is Pillow's doing.  When the open is not attempted or raises,
    no file is left open.  When it succeeds, the file is closed within the
    iteration exactly when Pillow closes it at the first pixel access: it
    is still open at the end of the iteration when Pillow keeps the file
    of a loaded image (first read returned a pixel) or of one whose first
    read raised.  In either case the image stays bound to [img] when the
    iteration ends. *)
Theorem handle_release_is_left_to_pillow
    (ph : FileHandling) (f : string) (s : State) :
  left_open ph (disk s) f =
    match open_on (disk s) (path_of f) with
    | Raise _ => []
    | Ok im =>
        match getpixel im (0, 0) with
        | Ok _ =>
            if kept_after_load ph (path_of f) then [path_of f] else []
        | Raise _ =>
            if kept_after_failed_read ph (path_of f) then [path_of f] else []
        end
    end /\
  img (snd (loop_body f s)) =
    match open_on (disk s) (path_of f) with
    | Ok im => Some im
    | Raise _ => img s
    end.
Proof.
  split; [ | apply img_after_iteration].
  unfold left_open, handles_along. unfold_body.
  generalize (path_of f) as p. intro p. step_state.
  assert (Hclose : close_file p [p] = [])
    by (unfold close_file; cbn [filter]; rewrite String.eqb_refl;
        reflexivity).
  destruct (open_on (disk s) p) as [im | e] eqn:Ho.
  - rewrite (exists_of_open _ _ _ Ho). step_state. rewrite Ho. step_state.
    destruct (getpixel im (0, 0)) as [c0 | [m | m]] eqn:G0; step_state.
    2,3: (repeat (cbn [fold_left step_handles open_files pending app
                       disk stdout calls img fst snd];
                  rewrite ?Ho, ?G0);
          destruct (kept_after_failed_read ph p);
          [reflexivity | exact Hclose]).
    destruct (getpixel im (width im - 1, 0)) as [c1 | [m | m]];
      step_state;
      [ destruct (getpixel im (0, height im - 1)) as [c2 | [m | m]];
        step_state;
        [ destruct (getpixel im (width im - 1, height im - 1))
            as [c3 | [m | m]]; step_state | .. ] | .. ];
      repeat (cbn [fold_left step_handles open_files pending app
                   disk stdout calls img fst snd];
              rewrite ?Ho, ?G0);
      (destruct (kept_after_load ph p); [reflexivity | exact Hclose]).
  - destruct (exists_on (disk s) p); step_state; [ | reflexivity].
    rewrite Ho.
    destruct e as [m | m]; step_state;
      repeat (cbn [fold_left step_handles open_files pending app
                   disk stdout calls img fst snd];
              rewrite ?Ho);
      reflexivity.
Qed.
